(** * IPTV playlist generator (src/iptv.py): model and verified properties

    A shallow embedding of [IPTVChannelExtractor]: Python strings are lists
    of Unicode code points, the two dictionaries built by the program are an
    ordered association list ([category_rules], whose iteration order
    matters) and a finite map ([icons_map], which is only looked up), and the
    effectful top of the program ([fetch], [write_m3u8], [run]) threads an
    explicit world through a small error monad. *)

From Stdlib Require Import NArith List Ascii String Lia Bool.
From stdpp Require Import gmap list.
Import ListNotations.

(** ** Python [str] *)

Module PyStr.

(** A [str] is a sequence of code points. *)
Abbreviation pystr := (list N).

(** UTF-8 decoding, used only to write the program's literals as they
    appear in the source file. *)
Fixpoint utf8_go (acc : N) (need : nat) (bs : list N) : pystr :=
  match bs with
  | [] => []
  | b :: bs' =>
    match need with
    | S k =>
        let acc' := (acc * 64 + b mod 64)%N in
        match k with
        | O => acc' :: utf8_go 0%N 0 bs'
        | S _ => utf8_go acc' k bs'
        end
    | O =>
        if (b <? 128)%N then b :: utf8_go 0%N 0 bs'
        else if (b <? 224)%N then utf8_go (b mod 32)%N 1 bs'
        else if (b <? 240)%N then utf8_go (b mod 16)%N 2 bs'
        else utf8_go (b mod 8)%N 3 bs'
    end
  end.

Definition py (s : string) : pystr :=
  utf8_go 0%N 0 (map N_of_ascii (list_ascii_of_string s)).

(** The two characters the literals of the source need an escape for. *)
Definition nl : pystr := [10%N].
Definition dq : pystr := [34%N].

(** [s.startswith(p)] *)
Fixpoint startswith (p s : pystr) : bool :=
  match p, s with
  | [], _ => true
  | _ :: _, [] => false
  | a :: p', b :: s' => N.eqb a b && startswith p' s'
  end.

(** [kw in text]: [kw] occurs in [text] as a contiguous substring. *)
Fixpoint contains (kw text : pystr) : bool :=
  startswith kw text ||
  match text with
  | [] => false
  | _ :: text' => contains kw text'
  end.

(** [s.replace(old, new)] for a non-empty [old]: a single left-to-right scan
    replacing non-overlapping occurrences. [skip] counts the characters of a
    matched occurrence that remain to be passed over. *)
Fixpoint replace_scan (old new : pystr) (skip : nat) (s : pystr) : pystr :=
  match s with
  | [] => []
  | c :: s' =>
    match skip with
    | S k => replace_scan old new k s'
    | O =>
        if startswith old s
        then new ++ replace_scan old new (length old - 1) s'
        else c :: replace_scan old new 0 s'
    end
  end.

(** [s.replace(old, new)]; an empty [old] matches before every character and
    at the end. *)
Definition replace (old new s : pystr) : pystr :=
  match old with
  | [] => new ++ flat_map (fun c => c :: new) s
  | _ :: _ => replace_scan old new 0 s
  end.

(** [c.isspace()] *)
Definition isspace (c : N) : bool :=
  ((9 <=? c) && (c <=? 13) || (28 <=? c) && (c <=? 32) ||
   (c =? 133) || (c =? 160) || (c =? 5760) ||
   (8192 <=? c) && (c <=? 8202) ||
   (c =? 8232) || (c =? 8233) || (c =? 8239) || (c =? 8287) ||
   (c =? 12288))%N.

Fixpoint lstrip (s : pystr) : pystr :=
  match s with
  | [] => []
  | c :: s' => if isspace c then lstrip s' else s
  end.

Definition rstrip (s : pystr) : pystr := rev (lstrip (rev s)).

(** [s.strip()] *)
Definition strip (s : pystr) : pystr := rstrip (lstrip s).

End PyStr.
Export PyStr.

(** ** Configuration set up by [__init__] *)

(** [category_rules]: a dict literal, iterated in insertion order. *)
Definition category_rules : list (pystr * list pystr) :=
  [ (py "央视", [py "CCTV"; py "CETV"; py "CGTN"]);
    (py "卫视", [py "卫视"]);
    (py "少儿", [py "少儿"; py "动画"; py "卡通"]);
    (py "电影", [py "电影"; py "影院"; py "院线"; py "大片"; py "爱浪漫";
                 py "爱喜剧"; py "爱科幻"; py "爱院线"; py "爱历史";
                 py "爱悬疑"; py "爱谍战"]);
    (py "电视剧", [py "剧场"; py "电视剧"; py "热播"; py "热门"; py "经典";
                   py "都市"; py "谍战"; py "都市剧场"; py "热门剧场";
                   py "经典剧场"; py "爱旅行"; py "精彩影视"]);
    (py "四川", [py "SCTV"; py "四川"; py "CDTV"; py "熊猫"; py "峨眉";
                 py "成都"]) ].

Definition filter_keywords : list pystr :=
  [ py "单音轨"; py "画中画"; py "热门"; py "直播室"; py "爱"; py "92";
    py "测试"; py "备用"; py "临时"; py "应急" ].

Definition cleanup_keywords : list pystr :=
  [ py "超高清"; py "高清"; py "-"; py "标清" ].

(** ** Records *)

(** The dicts appended by [extract_channels]. *)
Record RawChannel := mkRaw {
  raw_id : pystr;
  raw_name : pystr;
  raw_address : pystr
}.

(** The dicts appended by [process_channels]. *)
Record ProcessedChannel := mkProcessed {
  ch_id : pystr;
  ch_name : pystr;
  ch_address : pystr;
  ch_tag : pystr;
  ch_icon : pystr
}.

(** The dicts appended by [load_icons]. *)
Record IconRecord := mkIcon {
  icon_id : pystr;
  icon_name : pystr;
  icon_href : pystr
}.

(** ** Channel normalizer *)

(** [contains_any]: [any(kw in text for kw in keywords)] *)
Definition contains_any (text : pystr) (keywords : list pystr) : bool :=
  existsb (fun kw => contains kw text) keywords.

(** The loop of [categorize] over the items of a rule table. *)
Fixpoint categorize_rules (rules : list (pystr * list pystr)) (name : pystr)
  : pystr :=
  match rules with
  | [] => py "其他"
  | (cat, kws) :: rules' =>
      if contains_any name kws then cat else categorize_rules rules' name
  end.

Definition categorize (name : pystr) : pystr :=
  categorize_rules category_rules name.

(** Lines 115-117 of [process_channels]: the cleanup loop and the trim. *)
Definition cleanup_with (kws : list pystr) (name : pystr) : pystr :=
  strip (fold_left (fun name kw => replace kw [] name) kws name).

Definition cleanup (name : pystr) : pystr :=
  cleanup_with cleanup_keywords name.

(** [icons_map.get(name, "")] *)
Definition icon_get (icons_map : gmap pystr pystr) (name : pystr) : pystr :=
  default [] (icons_map !! name).

(** One iteration of the loop of [process_channels]. *)
Definition process_step (icons_map : gmap pystr pystr)
    (processed : list ProcessedChannel) (ch : RawChannel)
  : list ProcessedChannel :=
  let name := raw_name ch in
  if contains_any name filter_keywords then processed
  else
    let name := fold_left (fun name kw => replace kw [] name)
                          cleanup_keywords name in
    let name := strip name in
    processed ++
    [ {| ch_id := raw_id ch;
         ch_name := name;
         ch_address := raw_address ch;
         ch_tag := categorize name;
         ch_icon := icon_get icons_map name |} ].

Definition process_channels (channels : list RawChannel)
    (icons_map : gmap pystr pystr) : list ProcessedChannel :=
  fold_left (process_step icons_map) channels [].

(** ** Scraping *)

Abbreviation bytes := (list Byte.byte).

(** What [self.session.get(url, timeout=10)] does: it returns a response
    with a status code and a body, or raises. *)
Inductive HttpOutcome :=
  | Response (status : N) (content : bytes)
  | Timeout
  | ConnectionError.

(** A [<td>] element as the program observes it: [get_text(strip=True)] and
    the [href] of [find('a', href=True)], if there is such a tag. *)
Record Td := mkTd {
  td_text : pystr;
  td_href : option pystr
}.

Definition td_missing : Td := mkTd [] None.

(** The exceptions that leave [run]. *)
Inductive exn := OSError | UnicodeEncodeError | ValueError.

Inductive result (A : Type) :=
  | Ok (a : A)
  | Raise (e : exn).
Arguments Ok {A} a.
Arguments Raise {A} e.

(** The collaborators of the program: the network, the HTML parser
    ([BeautifulSoup(content, 'lxml')], read as the [td] lists of its [tr]
    elements in document order), [urllib.parse.urljoin], the process
    environment, the clock behind [now_to_rfc3339_utcoffset] and the file
    system. [urljoin] raises [ValueError] on some arguments (a link target
    such as [//[]): [urljoin_rejects] says on which, [urljoin] is its value
    on the others. [can_mkdir] and [can_open] say whether
    [Path(path).parent.mkdir(parents=True, exist_ok=True)] and
    [open(path, 'w')] succeed, and [file_of] is the file a path names, the
    same for two spellings of one file. *)
Record World := mkWorld {
  base_url : pystr;
  net : pystr -> HttpOutcome;
  soup_rows : bytes -> list (list Td);
  urljoin : pystr -> pystr -> pystr;
  urljoin_rejects : pystr -> pystr -> bool;
  environ : gmap pystr pystr;
  now_rfc3339 : nat -> pystr;
  can_mkdir : pystr -> bool;
  can_open : pystr -> bool;
  file_of : pystr -> pystr
}.

(** What the program changes: the content of the files it opened, by file,
    and how often it read the clock. *)
Record State := mkState {
  files : gmap pystr pystr;
  clock_reads : nat
}.

(** A computation that changes the state and returns or raises; the state
    reached is kept when it raises. *)
Definition bind {A B} (m : State -> result A * State)
    (k : A -> State -> result B * State) : State -> result B * State :=
  fun st =>
    match m st with
    | (Ok a, st') => k a st'
    | (Raise e, st') => (Raise e, st')
    end.

Notation "'do' x <- m ; k" := (bind m (fun x => k))
  (at level 10, x name, m at level 100, k at level 200).

(** A step that does not touch the state. *)
Definition pure_step {A} (r : result A) : State -> result A * State :=
  fun st => (r, st).

(** [raise_for_status] raises on 4xx and 5xx. *)
Definition raise_for_status (status : N) : bool :=
  ((400 <=? status) && (status <? 600))%N.

(** [fetch]: every exception of the request is caught and turned into
    [None]. *)
Definition fetch (w : World) (url : pystr) : option bytes :=
  match net w url with
  | Response status content =>
      if raise_for_status status then None else Some content
  | Timeout => None
  | ConnectionError => None
  end.

(** [not content] *)
Definition no_content (content : option bytes) : bool :=
  match content with
  | None => true
  | Some [] => true
  | Some (_ :: _) => false
  end.

(** One iteration of the loop of [load_icons]. *)
Definition load_icons_step (icons : list IconRecord) (tds : list Td)
  : list IconRecord :=
  if length tds <? 4 then icons
  else
    match td_href (nth 0 tds td_missing) with
    | None => icons
    | Some href =>
        if bool_decide (href = py "#") then icons
        else
          icons ++
          [ {| icon_id := td_text (nth 3 tds td_missing);
               icon_name := td_text (nth 2 tds td_missing);
               icon_href := href |} ]
    end.

Definition load_icons_rows (rows : list (list Td)) : list IconRecord :=
  fold_left load_icons_step rows [].

Definition load_icons (w : World) : list IconRecord :=
  let content := fetch w (base_url w) in
  if no_content content then []
  else load_icons_rows (soup_rows w (default [] content)).

(** One iteration of the loop of [extract_channels]. *)
Definition extract_channels_step (channels : list RawChannel) (tds : list Td)
  : list RawChannel :=
  if match tds with [] => true | _ :: _ => false end
     || bool_decide (td_text (nth 0 tds td_missing) = py "序号")
  then channels
  else if length tds <? 3 then channels
  else
    channels ++
    [ {| raw_id := td_text (nth 0 tds td_missing);
         raw_name := td_text (nth 1 tds td_missing);
         raw_address := td_text (nth 2 tds td_missing) |} ].

Definition extract_channels (w : World) : list RawChannel :=
  let content := fetch w (base_url w ++ py "/sctvmulticast.html") in
  if no_content content then []
  else fold_left extract_channels_step (soup_rows w (default [] content)) [].

(** [build_icons_map]: a dict comprehension, so a later item overwrites an
    earlier one with the same name. *)
Definition build_icons_map (w : World) (icons : list IconRecord)
  : gmap pystr pystr :=
  fold_left
    (fun m item => <[icon_name item := urljoin w (base_url w) (icon_href item)]> m)
    icons ∅.

(** ** Playlist writer *)

Definition header (timestamp : pystr) : pystr :=
  py "#EXTM3U name=" ++ dq ++ py "成都电信IPTV - " ++ timestamp ++ dq ++
  py " url-tvg=" ++ dq ++
  py "http://epg.51zmt.top:8000/e.xml,https://epg.112114.xyz/pp.xml" ++ dq ++
  nl ++ nl.

Definition extinf (ch : ProcessedChannel) : pystr :=
  py "#EXTINF:-1 tvg-logo=" ++ dq ++ ch_icon ch ++ dq ++
  py " tvg-id=" ++ dq ++ ch_id ch ++ dq ++
  py " tvg-name=" ++ dq ++ ch_name ch ++ dq ++
  py " group-title=" ++ dq ++ ch_tag ch ++ dq ++ py "," ++ ch_name ch ++ nl.

(** [os.getenv(key, default)] *)
Definition getenv (w : World) (key dflt : pystr) : pystr :=
  default dflt (environ w !! key).

Definition stream_url (w : World) (use_lan_address : bool)
    (ch : ProcessedChannel) : pystr :=
  if use_lan_address then
    let lan_addr := getenv w (py "LAN_ADDRESS") (py "http://localhost") in
    lan_addr ++ py "/rtp/" ++ ch_address ch ++ nl
  else py "rtp://" ++ ch_address ch ++ nl.

(** One iteration of the loop of [write_m3u8]; [f] is what has been written
    to the file so far. *)
Definition write_entry (w : World) (use_lan_address : bool) (f : pystr)
    (ch : ProcessedChannel) : pystr :=
  let f := f ++ extinf ch in
  f ++ stream_url w use_lan_address ch.

(** The text [write_m3u8] writes for a given timestamp, when all of it can
    be encoded. *)
Definition playlist_text (w : World) (timestamp : pystr)
    (channels : list ProcessedChannel) (use_lan_address : bool) : pystr :=
  fold_left (write_entry w use_lan_address) channels (header timestamp).

(** A code point that UTF-8 can encode: not a surrogate. *)
Definition encodable_char (c : N) : bool :=
  ((c <? 55296) || (57343 <? c) && (c <? 1114112))%N.

Definition encodable (s : pystr) : bool := forallb encodable_char s.

(** [f.write(s)] on a file opened with [encoding='utf-8']: [s] is encoded
    when it is written, and a string that cannot be encoded raises with
    nothing of it written. [f] is the text written so far. *)
Definition f_write (f s : pystr) : result pystr :=
  if encodable s then Ok (f ++ s) else Raise UnicodeEncodeError.

(** The loop of [write_m3u8] on the open file: how it ends and the text the
    file holds when it is closed. *)
Fixpoint write_entries (w : World) (use_lan_address : bool)
    (channels : list ProcessedChannel) (f : pystr) : result unit * pystr :=
  match channels with
  | [] => (Ok tt, f)
  | ch :: channels' =>
      match f_write f (extinf ch) with
      | Raise e => (Raise e, f)
      | Ok f1 =>
          match f_write f1 (stream_url w use_lan_address ch) with
          | Raise e => (Raise e, f1)
          | Ok f2 => write_entries w use_lan_address channels' f2
          end
      end
  end.

(** The body of the [with open(...)] block of [write_m3u8]. *)
Definition write_text (w : World) (timestamp : pystr)
    (channels : list ProcessedChannel) (use_lan_address : bool)
  : result unit * pystr :=
  match f_write [] (header timestamp) with
  | Raise e => (Raise e, [])
  | Ok f => write_entries w use_lan_address channels f
  end.

(** [write_m3u8]: the directory is made, the clock is read, the file is
    opened (and emptied), the text is written. *)
Definition write_m3u8 (w : World) (channels : list ProcessedChannel)
    (output_path : pystr) (use_lan_address : bool)
  : State -> result unit * State :=
  fun st =>
    if can_mkdir w output_path then
      let timestamp := now_rfc3339 w (clock_reads st) in
      let st := {| files := files st; clock_reads := S (clock_reads st) |} in
      if can_open w output_path then
        let '(r, text) := write_text w timestamp channels use_lan_address in
        (r, {| files := <[file_of w output_path := text]> (files st);
               clock_reads := clock_reads st |})
      else (Raise OSError, st)
    else (Raise OSError, st).

(** A call of [build_icons_map]: [ValueError] when [urljoin] rejects the
    link target of an item, the index otherwise. *)
Definition build_icons_map_call (w : World) (icons : list IconRecord)
  : result (gmap pystr pystr) :=
  if existsb (fun item => urljoin_rejects w (base_url w) (icon_href item)) icons
  then Raise ValueError
  else Ok (build_icons_map w icons).

Definition run (w : World) (output_with_lan output_native_rtp : pystr)
  : State -> result unit * State :=
  let raw_channels := extract_channels w in
  let icons := load_icons w in
  do icons_map <- pure_step (build_icons_map_call w icons);
  let processed := process_channels raw_channels icons_map in
  do _ <- write_m3u8 w processed output_with_lan true;
  write_m3u8 w processed output_native_rtp false.

(** ** Lines of a text *)

(** The lines of a text, separated by the newline the writer emits. *)
Fixpoint lines (s : pystr) : list pystr :=
  match s with
  | [] => [[]]
  | c :: s' =>
      if (c =? 10)%N then [] :: lines s'
      else
        match lines s' with
        | l :: ls => (c :: l) :: ls
        | [] => [[c]]
        end
  end.

(** A blank line has only whitespace. *)
Definition blank (l : pystr) : bool := forallb isspace l.

Definition non_blank_lines (s : pystr) : list pystr :=
  List.filter (fun l => negb (blank l)) (lines s).

(** A string that has no line break. *)
Definition one_line (s : pystr) : bool := negb (existsb (N.eqb 10) s).

Definition channel_one_line (ch : ProcessedChannel) : bool :=
  one_line (ch_icon ch) && one_line (ch_id ch) && one_line (ch_name ch) &&
  one_line (ch_tag ch) && one_line (ch_address ch).

(** ** Notions used to state the properties *)

(** A trimmed string neither starts nor ends with whitespace. *)
Definition trimmed (s : pystr) : Prop :=
  (forall c, head s = Some c -> isspace c = false) /\
  (forall c, head (rev s) = Some c -> isspace c = false).

(** The cleanup loop alone, for any keyword list. *)
Definition remove_keywords (kws : list pystr) (name : pystr) : pystr :=
  fold_left (fun name kw => replace kw [] name) kws name.

(** The record [process_channels] appends for a row that passes the
    filter. *)
Definition normalize (icons_map : gmap pystr pystr) (ch : RawChannel)
  : ProcessedChannel :=
  {| ch_id := raw_id ch;
     ch_name := cleanup (raw_name ch);
     ch_address := raw_address ch;
     ch_tag := categorize (cleanup (raw_name ch));
     ch_icon := icon_get icons_map (cleanup (raw_name ch)) |}.

(** A row passes the filter when its raw name has no filter keyword. *)
Definition survives (ch : RawChannel) : bool :=
  negb (contains_any (raw_name ch) filter_keywords).

(** A row of the icon table that [load_icons] keeps: at least four cells, a
    link in the first one, and a target other than the placeholder. *)
Definition accepted (tds : list Td) : bool :=
  (4 <=? length tds) &&
  match td_href (nth 0 tds td_missing) with
  | None => false
  | Some href => negb (bool_decide (href = py "#"))
  end.

(** The record [load_icons] appends for a row it keeps. *)
Definition icon_of_row (tds : list Td) : IconRecord :=
  {| icon_id := td_text (nth 3 tds td_missing);
     icon_name := td_text (nth 2 tds td_missing);
     icon_href := default [] (td_href (nth 0 tds td_missing)) |}.

(** The request of [fetch] failed: a timeout, a connection error, or a
    status that [raise_for_status] rejects. *)
Definition transport_failure (o : HttpOutcome) : bool :=
  match o with
  | Response status _ => ((400 <=? status) && (status <? 600))%N
  | Timeout => true
  | ConnectionError => true
  end.

(** A request that did not succeed, in the widest reading: a timeout, a
    connection error, or a status outside 200..299. *)
Definition request_not_successful (o : HttpOutcome) : bool :=
  match o with
  | Response status _ => negb ((200 <=? status) && (status <? 300))%N
  | Timeout => true
  | ConnectionError => true
  end.

(** Every string [write_m3u8] writes for these channels can be encoded. *)
Definition text_encodable (w : World) (timestamp : pystr)
    (channels : list ProcessedChannel) (use_lan_address : bool) : bool :=
  encodable (header timestamp) &&
  forallb (fun ch => encodable (extinf ch) &&
                     encodable (stream_url w use_lan_address ch)) channels.

(** [urljoin] accepts the link target of every item. *)
Definition icons_joinable (w : World) (icons : list IconRecord) : bool :=
  negb (existsb (fun item => urljoin_rejects w (base_url w) (icon_href item))
                icons).

(** The three kinds of line of a playlist, without their terminators, as
    the playlist format gives them. *)
Definition header_line (timestamp : pystr) : pystr :=
  py "#EXTM3U name=" ++ dq ++ py "成都电信IPTV - " ++ timestamp ++ dq ++
  py " url-tvg=" ++ dq ++
  py "http://epg.51zmt.top:8000/e.xml,https://epg.112114.xyz/pp.xml" ++ dq.

Definition extinf_line (ch : ProcessedChannel) : pystr :=
  py "#EXTINF:-1 tvg-logo=" ++ dq ++ ch_icon ch ++ dq ++
  py " tvg-id=" ++ dq ++ ch_id ch ++ dq ++
  py " tvg-name=" ++ dq ++ ch_name ch ++ dq ++
  py " group-title=" ++ dq ++ ch_tag ch ++ dq ++ py "," ++ ch_name ch.

Definition stream_line (w : World) (use_lan_address : bool)
    (ch : ProcessedChannel) : pystr :=
  if use_lan_address then
    getenv w (py "LAN_ADDRESS") (py "http://localhost") ++
    py "/rtp/" ++ ch_address ch
  else py "rtp://" ++ ch_address ch.

(** ** Sample inputs *)

Definition scenario1 : RawChannel :=
  mkRaw (py "1") (py "CCTV-1 高清") (py "239.1.1.1:5000").

Definition scenario2 : RawChannel :=
  mkRaw (py "2") (py "测试频道") (py "239.1.1.2:5000").

(** A machine without network and without [LAN_ADDRESS], whose disk can be
    written. *)
Definition offline_world : World :=
  {| base_url := py "http://epg.51zmt.top:8000";
     net := fun _ => Timeout;
     soup_rows := fun _ => [];
     urljoin := fun base url => base ++ url;
     urljoin_rejects := fun _ url => bool_decide (url = py "//[");
     environ := ∅;
     now_rfc3339 := fun _ => py "2024-01-01T00:00:00+00:00";
     can_mkdir := fun _ => true;
     can_open := fun _ => true;
     file_of := fun path => path |}.

(** A channel whose name has a line break inside, as [get_text(strip=True)]
    returns for a cell whose text has one. *)
Definition two_line_channel : ProcessedChannel :=
  mkProcessed (py "9") (py "CCTV" ++ nl ++ py "9") (py "239.1.1.9:5000")
              (py "央视") [].

(** ** Further notions and sample inputs *)

(** A row of the channel table that [extract_channels] keeps: not the
    header row, and at least three cells. *)
Definition channel_row (tds : list Td) : bool :=
  negb (bool_decide (td_text (nth 0 tds td_missing) = py "序号")) &&
  (3 <=? length tds).

(** The record [extract_channels] appends for a row it keeps. *)
Definition raw_of_row (tds : list Td) : RawChannel :=
  {| raw_id := td_text (nth 0 tds td_missing);
     raw_name := td_text (nth 1 tds td_missing);
     raw_address := td_text (nth 2 tds td_missing) |}.

(** Every trigger keyword of [category_rules]. *)
Definition all_triggers : list pystr := flat_map snd category_rules.

(** The two pages of a small site: an icon table with a placeholder row and
    two rows for one name, and a channel table with its header row, a short
    row, a row to be filtered and two channels. *)
Definition icon_page : bytes := [Byte.x69].
Definition channel_page : bytes := [Byte.x63].

Definition icon_table : list (list Td) :=
  [ [mkTd [] (Some (py "#")); mkTd (py "0") None; mkTd (py "CCTV1") None;
     mkTd (py "0") None];
    [mkTd [] (Some (py "/logo/old.png")); mkTd (py "1") None;
     mkTd (py "CCTV1") None; mkTd (py "1") None];
    [mkTd [] None; mkTd (py "2") None; mkTd (py "四川卫视") None;
     mkTd (py "3") None];
    [mkTd [] (Some (py "/logo/new.png")); mkTd (py "3") None;
     mkTd (py "CCTV1") None; mkTd (py "1") None] ].

Definition channel_table : list (list Td) :=
  [ [mkTd (py "序号") None; mkTd (py "频道名称") None; mkTd (py "地址") None];
    [mkTd (py "1") None; mkTd (py "CCTV-1 高清") None;
     mkTd (py "239.1.1.1:5000") None];
    [mkTd (py "注") None];
    [mkTd (py "2") None; mkTd (py "测试频道") None;
     mkTd (py "239.1.1.2:5000") None];
    [mkTd (py "3") None; mkTd (py "四川卫视-超高清") None;
     mkTd (py "239.1.1.3:5000") None] ].

Definition online_world : World :=
  {| base_url := py "http://epg.51zmt.top:8000";
     net := fun url =>
       if bool_decide (url = py "http://epg.51zmt.top:8000")
       then Response 200 icon_page
       else Response 200 channel_page;
     soup_rows := fun content =>
       match content with
       | [Byte.x69] => icon_table
       | _ => channel_table
       end;
     urljoin := fun base url => base ++ url;
     urljoin_rejects := fun _ url => bool_decide (url = py "//[");
     environ := {[ py "LAN_ADDRESS" := py "http://192.168.1.1:4022" ]};
     now_rfc3339 := fun _ => py "2024-01-01T00:00:00+00:00";
     can_mkdir := fun _ => true;
     can_open := fun path => negb (bool_decide (path = py "/proc/x.m3u8"));
     file_of := fun path =>
       if startswith (py "./") path then skipn 2 path else path |}.

(** A site that answers every request with status 300 and the channel
    table as body. *)
Definition redirect_world : World :=
  {| base_url := py "http://epg.51zmt.top:8000";
     net := fun _ => Response 300 channel_page;
     soup_rows := fun _ => channel_table;
     urljoin := fun base url => base ++ url;
     urljoin_rejects := fun _ url => bool_decide (url = py "//[");
     environ := ∅;
     now_rfc3339 := fun _ => py "2024-01-01T00:00:00+00:00";
     can_mkdir := fun _ => true;
     can_open := fun _ => true;
     file_of := fun path => path |}.

(** The channels [run] hands to [write_m3u8]. *)
Definition processed_of (w : World) : list ProcessedChannel :=
  process_channels (extract_channels w) (build_icons_map w (load_icons w)).

(** * Properties *)

(** ** Facts about [str] operations *)

Section StrFacts.

Implicit Types (s t old kw : pystr) (c : N).

Lemma startswith_app old s : startswith old (old ++ s) = true.
Proof.
  induction old as [|a old IH]; simpl; [reflexivity|].
  now rewrite N.eqb_refl.
Qed.

Lemma startswith_inv old s :
  startswith old s = true -> exists t, s = old ++ t.
Proof.
  revert s. induction old as [|a old IH]; intros s H.
  - now exists s.
  - destruct s as [|b s]; simpl in H; [discriminate|].
    apply andb_true_iff in H as [Hab Hs]. apply N.eqb_eq in Hab as ->.
    destruct (IH _ Hs) as [t ->]. now exists t.
Qed.

Lemma contains_startswith kw s :
  startswith kw s = true -> contains kw s = true.
Proof. intros H. destruct s; simpl; now rewrite H. Qed.

(** Substring test, as a decomposition of the text. *)
Lemma contains_true kw s :
  contains kw s = true <-> exists pre post, s = pre ++ kw ++ post.
Proof.
  split.
  - induction s as [|c s IH]; simpl; intros H.
    + rewrite orb_false_r in H. destruct (startswith_inv _ _ H) as [t ->].
      now exists [], t.
    + apply orb_true_iff in H as [H|H].
      * destruct (startswith_inv _ _ H) as [t ->]. now exists [], t.
      * destruct (IH H) as (pre & post & ->). now exists (c :: pre), post.
  - intros (pre & post & ->). induction pre as [|c pre IH].
    + rewrite app_nil_l. apply contains_startswith, startswith_app.
    + simpl. rewrite IH. apply orb_true_r.
Qed.

Lemma contains_char c s : contains [c] s = true <-> c ∈ s.
Proof.
  induction s as [|x s IH]; simpl.
  - split; [discriminate|]. intros H. inversion H.
  - rewrite andb_true_r, orb_true_iff, IH, N.eqb_eq, elem_of_cons.
    split; intros [H|H]; auto.
Qed.

(** Removal keeps the remaining characters in order. *)
Lemma replace_scan_sublist old k s :
  replace_scan old [] k s `sublist_of` s.
Proof.
  revert k. induction s as [|c s IH]; intros k; simpl.
  - constructor.
  - destruct k; [|now constructor].
    destruct (startswith old (c :: s)); simpl; now constructor.
Qed.

Lemma flat_map_singleton s : flat_map (fun c => [c]) s = s.
Proof. induction s; simpl; congruence. Qed.

Lemma replace_sublist old s : replace old [] s `sublist_of` s.
Proof.
  destruct old; simpl.
  - now rewrite flat_map_singleton.
  - apply replace_scan_sublist.
Qed.

Lemma replace_length old s : length (replace old [] s) <= length s.
Proof. apply sublist_length, replace_sublist. Qed.

(** Without an occurrence nothing is replaced. *)
Lemma replace_absent old new s :
  contains old s = false -> replace old new s = s.
Proof.
  destruct old as [|a old]; [destruct s; discriminate|].
  simpl. induction s as [|c s IH]; [reflexivity|].
  intros H. change (contains (a :: old) (c :: s))
    with (startswith (a :: old) (c :: s) || contains (a :: old) s) in H.
  apply orb_false_iff in H as [H1 H2].
  cbn [replace_scan]. rewrite H1. f_equal. auto.
Qed.

(** With an occurrence of a non-empty [old], removal makes the string
    shorter. *)
Lemma replace_shrinks old s :
  old <> [] -> contains old s = true ->
  length (replace old [] s) < length s.
Proof.
  destruct old as [|a old]; [congruence|]. intros _.
  simpl. induction s as [|c s IH]; [discriminate|].
  intros H. change (contains (a :: old) (c :: s))
    with (startswith (a :: old) (c :: s) || contains (a :: old) s) in H.
  cbn [replace_scan].
  destruct (startswith (a :: old) (c :: s)) eqn:E.
  - pose proof (sublist_length _ _
      (replace_scan_sublist (a :: old) (length (a :: old) - 1) s)).
    simpl in *. lia.
  - simpl in H. specialize (IH H). simpl. lia.
Qed.

(** Removing a one-character keyword leaves no occurrence of it. *)
Lemma replace_char_gone c s : c ∉ replace [c] [] s.
Proof.
  simpl. induction s as [|x s IH]; cbn [replace_scan].
  - apply not_elem_of_nil.
  - simpl. rewrite andb_true_r. destruct (N.eqb_spec c x) as [->|Hne];
      simpl; [exact IH|].
    rewrite not_elem_of_cons. auto.
Qed.

Lemma lstrip_suffix s : exists pre, s = pre ++ lstrip s.
Proof.
  induction s as [|c s [pre IH]]; simpl.
  - now exists [].
  - destruct (isspace c); [|now exists []].
    exists (c :: pre). simpl. congruence.
Qed.

Lemma lstrip_head s c : head (lstrip s) = Some c -> isspace c = false.
Proof.
  induction s as [|x s IH]; simpl; [discriminate|].
  destruct (isspace x) eqn:E; [exact IH|]. simpl. congruence.
Qed.

Lemma lstrip_fixed s :
  (forall c, head s = Some c -> isspace c = false) -> lstrip s = s.
Proof.
  destruct s as [|x s]; simpl; [reflexivity|].
  intros H. now rewrite (H x eq_refl).
Qed.

Lemma lstrip_sublist s : lstrip s `sublist_of` s.
Proof.
  destruct (lstrip_suffix s) as [pre E]. rewrite E at 2.
  apply sublist_inserts_l. reflexivity.
Qed.

Lemma rev_sublist (s t : pystr) : s `sublist_of` t -> rev s `sublist_of` rev t.
Proof.
  induction 1; simpl.
  - constructor.
  - apply sublist_app; [assumption|reflexivity].
  - rewrite <- (app_nil_r (rev l1)). apply sublist_app; [assumption|].
    apply sublist_nil_l.
Qed.

Lemma strip_sublist s : strip s `sublist_of` s.
Proof.
  unfold strip, rstrip. etransitivity; [|apply lstrip_sublist].
  rewrite <- (rev_involutive (lstrip s)) at 2.
  apply rev_sublist, lstrip_sublist.
Qed.

Lemma strip_length s : length (strip s) <= length s.
Proof. apply sublist_length, strip_sublist. Qed.

Lemma strip_trimmed s : trimmed (strip s).
Proof.
  unfold strip, rstrip. set (t := lstrip s). set (r := lstrip (rev t)).
  split; intros c Hc.
  - destruct (lstrip_suffix (rev t)) as [pre E]. fold r in E.
    apply (f_equal (@rev N)) in E. rewrite rev_involutive, rev_app_distr in E.
    destruct (rev r) as [|x r'] eqn:Er; [discriminate|].
    simpl in Hc. injection Hc as ->.
    apply (lstrip_head s). fold t. now rewrite E.
  - rewrite rev_involutive in Hc. now apply (lstrip_head (rev t)).
Qed.

Lemma strip_fixed s : trimmed s -> strip s = s.
Proof.
  intros [Hl Hr]. unfold strip, rstrip.
  rewrite (lstrip_fixed s Hl), (lstrip_fixed (rev s) Hr).
  apply rev_involutive.
Qed.

Lemma strip_idempotent s : strip (strip s) = strip s.
Proof. apply strip_fixed, strip_trimmed. Qed.

Lemma sublist_not_elem_of c s t : s `sublist_of` t -> c ∉ t -> c ∉ s.
Proof. intros Hs Hc Hin. apply Hc. eapply elem_of_sublist; eauto. Qed.

End StrFacts.

(** ** The cleanup step *)

Section Cleanup.

Implicit Types (s name : pystr) (kws : list pystr).

Lemma remove_keywords_sublist kws name :
  remove_keywords kws name `sublist_of` name.
Proof.
  revert name. induction kws as [|kw kws IH]; intros name; simpl.
  - reflexivity.
  - etransitivity; [apply IH|apply replace_sublist].
Qed.

Lemma remove_keywords_absent kws name :
  contains_any name kws = false -> remove_keywords kws name = name.
Proof.
  revert name. induction kws as [|kw kws IH]; intros name H; simpl in *.
  - reflexivity.
  - apply orb_false_iff in H as [H1 H2].
    rewrite (replace_absent kw [] name H1). auto.
Qed.

Lemma remove_keywords_shrinks kws name :
  Forall (fun kw => kw <> []) kws ->
  contains_any name kws = true ->
  length (remove_keywords kws name) < length name.
Proof.
  intros Hne. revert name.
  induction Hne as [|kw kws Hkw Hne IH]; intros name H; simpl in *.
  - discriminate.
  - destruct (contains kw name) eqn:E.
    + pose proof (replace_shrinks kw name Hkw E).
      pose proof (sublist_length _ _
        (remove_keywords_sublist kws (replace kw [] name))).
      unfold remove_keywords in *. lia.
    + rewrite (replace_absent kw [] name E). auto.
Qed.

Lemma cleanup_with_sublist kws name : cleanup_with kws name `sublist_of` name.
Proof.
  unfold cleanup_with. etransitivity; [apply strip_sublist|].
  apply remove_keywords_sublist.
Qed.

(** A cleaned name is a fixed point of the cleanup exactly when no keyword
    occurs in it. *)
Lemma cleanup_with_fixed kws name :
  Forall (fun kw => kw <> []) kws ->
  cleanup_with kws (cleanup_with kws name) = cleanup_with kws name <->
  contains_any (cleanup_with kws name) kws = false.
Proof.
  intros Hne. split.
  - intros Heq. destruct (contains_any _ kws) eqn:E; [|reflexivity].
    pose proof (remove_keywords_shrinks kws _ Hne E) as Hlt.
    pose proof (strip_length (remove_keywords kws (cleanup_with kws name))) as Hle.
    apply (f_equal (@length N)) in Heq.
    unfold cleanup_with at 1 in Heq. unfold remove_keywords in *. lia.
  - intros Habs. unfold cleanup_with at 1.
    fold (remove_keywords kws (cleanup_with kws name)).
    rewrite (remove_keywords_absent _ _ Habs).
    unfold cleanup_with. apply strip_idempotent.
Qed.

Lemma cleanup_keywords_nonempty : Forall (fun kw => kw <> []) cleanup_keywords.
Proof. repeat constructor; discriminate. Qed.

(** The hyphen is removed as a single character, and neither the later
    removal of [标清] nor the trim can bring one back. *)
Lemma cleanup_no_hyphen name : contains (py "-") (cleanup name) = false.
Proof.
  destruct (contains (py "-") (cleanup name)) eqn:E; [|reflexivity].
  exfalso. change (py "-") with [45%N] in E. apply contains_char in E.
  revert E. unfold cleanup, cleanup_with.
  apply (sublist_not_elem_of _ _ _ (strip_sublist _)).
  change cleanup_keywords with ([py "超高清"; py "高清"] ++ [[45%N]] ++ [py "标清"]).
  rewrite !fold_left_app. cbn [fold_left].
  apply (sublist_not_elem_of _ _ _ (replace_sublist _ _)).
  apply replace_char_gone.
Qed.

End Cleanup.

(** ** The normalizer as a filter followed by a map *)

Section Normalizer.

Variable icons_map : gmap pystr pystr.

Local Abbreviation normalize := (normalize icons_map).

Lemma process_step_eq processed ch :
  process_step icons_map processed ch =
  processed ++ (if survives ch then [normalize ch] else []).
Proof.
  unfold process_step, survives, normalize.
  destruct (contains_any (raw_name ch) filter_keywords); simpl.
  - now rewrite app_nil_r.
  - reflexivity.
Qed.

Lemma process_loop channels processed :
  fold_left (process_step icons_map) channels processed =
  processed ++ map normalize (List.filter survives channels).
Proof.
  revert processed. induction channels as [|ch chs IH]; intros acc; simpl.
  - now rewrite app_nil_r.
  - rewrite IH, process_step_eq. destruct (survives ch); simpl.
    + now rewrite <- app_assoc.
    + now rewrite app_nil_r.
Qed.

Lemma process_channels_eq channels :
  process_channels channels icons_map =
  map normalize (List.filter survives channels).
Proof. unfold process_channels. now rewrite process_loop. Qed.

Lemma process_channels_app chs1 chs2 :
  process_channels (chs1 ++ chs2) icons_map =
  process_channels chs1 icons_map ++ process_channels chs2 icons_map.
Proof. now rewrite !process_channels_eq, List.filter_app, map_app. Qed.

Lemma process_channels_origin channels p :
  p ∈ process_channels channels icons_map ->
  exists ch, ch ∈ channels /\ survives ch = true /\ p = normalize ch.
Proof.
  rewrite process_channels_eq, list_elem_of_In, in_map_iff.
  intros (ch & <- & Hin). apply filter_In in Hin as [Hin Hs].
  exists ch. now rewrite list_elem_of_In.
Qed.

Lemma filter_sublist {A} (f : A -> bool) (l : list A) :
  List.filter f l `sublist_of` l.
Proof.
  induction l as [|x l IH]; simpl; [constructor|].
  destruct (f x); now constructor.
Qed.

Lemma map_sublist {A B} (f : A -> B) (l k : list A) :
  l `sublist_of` k -> map f l `sublist_of` map f k.
Proof. induction 1; simpl; now constructor. Qed.

Lemma process_channels_ids channels :
  map ch_id (process_channels channels icons_map) `sublist_of`
  map raw_id channels.
Proof.
  rewrite process_channels_eq, map_map. simpl.
  change (fun x => raw_id x) with raw_id.
  apply map_sublist, filter_sublist.
Qed.

End Normalizer.

(** ** Categorization *)

Lemma categorize_rules_first rules name :
  (exists pre cat kws post,
      rules = pre ++ (cat, kws) :: post /\
      Forall (fun r => contains_any name (snd r) = false) pre /\
      contains_any name kws = true /\
      categorize_rules rules name = cat) \/
  (Forall (fun r => contains_any name (snd r) = false) rules /\
   categorize_rules rules name = py "其他").
Proof.
  induction rules as [|[cat kws] rules IH]; simpl.
  - right. split; [constructor|reflexivity].
  - destruct (contains_any name kws) eqn:E.
    + left. exists [], cat, kws, rules. repeat split; auto.
    + destruct IH as [(pre & cat' & kws' & post & -> & Hpre & Hm & Hc)|[Hall Hc]].
      * left. exists ((cat, kws) :: pre), cat', kws', post.
        repeat split; auto.
      * right. split; auto.
Qed.

(** ** The text of a playlist *)

Section Playlist.

Implicit Types (s t : pystr) (ch : ProcessedChannel).

Lemma one_line_app s t : one_line (s ++ t) = one_line s && one_line t.
Proof. unfold one_line. now rewrite existsb_app, negb_orb. Qed.

Lemma blank_app s t : blank (s ++ t) = blank s && blank t.
Proof. apply forallb_app. Qed.

(** A text that starts with a line and its terminator. *)
Lemma lines_app_nl s t :
  one_line s = true -> lines (s ++ nl ++ t) = s :: lines t.
Proof.
  induction s as [|c s IH]; intros H.
  - reflexivity.
  - unfold one_line in H. cbn [existsb] in H. rewrite negb_orb in H.
    apply andb_true_iff in H as [Hc Hs].
    apply negb_true_iff in Hc. rewrite N.eqb_sym in Hc.
    rewrite <- app_comm_cons. cbn [lines]. rewrite Hc.
    now rewrite (IH Hs).
Qed.

Lemma lines_nl t : lines (nl ++ t) = [] :: lines t.
Proof. reflexivity. Qed.

Lemma header_eq t : header t = header_line t ++ nl ++ nl.
Proof. unfold header, header_line. now rewrite <- !app_assoc. Qed.

Lemma extinf_eq ch : extinf ch = extinf_line ch ++ nl.
Proof. unfold extinf, extinf_line. now rewrite <- !app_assoc. Qed.

Lemma stream_url_eq w lan ch :
  stream_url w lan ch = stream_line w lan ch ++ nl.
Proof.
  unfold stream_url, stream_line. destruct lan; now rewrite <- !app_assoc.
Qed.

Lemma header_line_one_line t :
  one_line t = true -> one_line (header_line t) = true.
Proof.
  intros H. unfold header_line. rewrite !one_line_app, H. reflexivity.
Qed.

Lemma extinf_line_one_line ch :
  channel_one_line ch = true -> one_line (extinf_line ch) = true.
Proof.
  unfold channel_one_line. rewrite !andb_true_iff.
  intros [[[[Hi Hd] Hn] Ht] _].
  unfold extinf_line. rewrite !one_line_app, Hi, Hd, Hn, Ht. reflexivity.
Qed.

Lemma stream_line_one_line w lan ch :
  (lan = true ->
   one_line (getenv w (py "LAN_ADDRESS") (py "http://localhost")) = true) ->
  channel_one_line ch = true -> one_line (stream_line w lan ch) = true.
Proof.
  unfold channel_one_line. rewrite !andb_true_iff.
  intros Hlan [_ Ha]. unfold stream_line. destruct lan.
  - rewrite !one_line_app, (Hlan eq_refl), Ha. reflexivity.
  - rewrite !one_line_app, Ha. reflexivity.
Qed.

Lemma header_line_not_blank t : blank (header_line t) = false.
Proof. unfold header_line. rewrite blank_app. reflexivity. Qed.

Lemma extinf_line_not_blank ch : blank (extinf_line ch) = false.
Proof. unfold extinf_line. rewrite blank_app. reflexivity. Qed.

Lemma stream_line_not_blank w lan ch : blank (stream_line w lan ch) = false.
Proof.
  unfold stream_line. destruct lan.
  - rewrite !blank_app.
    assert (blank (py "/rtp/") = false) as -> by reflexivity.
    apply andb_false_r.
  - rewrite blank_app. reflexivity.
Qed.

(** What the loop of [write_m3u8] appends. *)
Lemma write_loop w lan channels f :
  fold_left (write_entry w lan) channels f =
  f ++ flat_map (fun ch => extinf ch ++ stream_url w lan ch) channels.
Proof.
  revert f. induction channels as [|ch chs IH]; intros f;
    cbn [fold_left flat_map].
  - now rewrite app_nil_r.
  - rewrite IH. unfold write_entry. now rewrite <- !app_assoc.
Qed.

Lemma lines_entries w lan channels :
  (lan = true ->
   one_line (getenv w (py "LAN_ADDRESS") (py "http://localhost")) = true) ->
  forallb channel_one_line channels = true ->
  lines (flat_map (fun ch => extinf ch ++ stream_url w lan ch) channels) =
  flat_map (fun ch => [extinf_line ch; stream_line w lan ch]) channels ++ [[]].
Proof.
  intros Hlan. induction channels as [|ch chs IH];
    cbn [flat_map forallb]; intros H.
  - reflexivity.
  - apply andb_true_iff in H as [Hch Hchs].
    rewrite extinf_eq, stream_url_eq, <- !app_assoc.
    cbn [app].
    rewrite lines_app_nl by now apply extinf_line_one_line.
    rewrite lines_app_nl by now apply stream_line_one_line.
    now rewrite (IH Hchs).
Qed.

Lemma lines_playlist w t channels lan :
  one_line t = true ->
  (lan = true ->
   one_line (getenv w (py "LAN_ADDRESS") (py "http://localhost")) = true) ->
  forallb channel_one_line channels = true ->
  lines (playlist_text w t channels lan) =
  header_line t :: [] ::
  flat_map (fun ch => [extinf_line ch; stream_line w lan ch]) channels ++ [[]].
Proof.
  intros Ht Hlan Hchs. unfold playlist_text.
  rewrite write_loop, header_eq, <- !app_assoc.
  rewrite lines_app_nl by now apply header_line_one_line.
  rewrite lines_nl.
  now rewrite lines_entries.
Qed.

Lemma non_blank_entries w lan channels :
  List.filter (fun l => negb (blank l))
    (flat_map (fun ch => [extinf_line ch; stream_line w lan ch]) channels ++ [[]]) =
  flat_map (fun ch => [extinf_line ch; stream_line w lan ch]) channels.
Proof.
  induction channels as [|ch chs IH]; cbn [flat_map app List.filter].
  - reflexivity.
  - rewrite extinf_line_not_blank, stream_line_not_blank. cbn [negb].
    now rewrite IH.
Qed.

Lemma entries_length w lan channels :
  length (flat_map (fun ch => [extinf_line ch; stream_line w lan ch]) channels)
  = 2 * length channels.
Proof. induction channels; cbn [flat_map app length]; lia. Qed.

End Playlist.

(** ** The icon index *)

Section IconIndex.

Variable w : World.

Implicit Types (icons : list IconRecord) (tds : list Td).

Lemma load_icons_step_eq icons tds :
  load_icons_step icons tds =
  icons ++ (if accepted tds then [icon_of_row tds] else []).
Proof.
  unfold load_icons_step, accepted, icon_of_row.
  rewrite Nat.leb_antisym.
  destruct (length tds <? 4); cbn [negb andb].
  - now rewrite app_nil_r.
  - destruct (td_href (nth 0 tds td_missing)) as [href|].
    + destruct (bool_decide (href = py "#")); cbn [negb].
      * now rewrite app_nil_r.
      * reflexivity.
    + now rewrite app_nil_r.
Qed.

Lemma load_icons_loop rows icons :
  fold_left load_icons_step rows icons =
  icons ++ map icon_of_row (List.filter accepted rows).
Proof.
  revert icons. induction rows as [|tds rows IH]; intros icons;
    cbn [fold_left List.filter].
  - now rewrite app_nil_r.
  - rewrite IH, load_icons_step_eq. destruct (accepted tds); cbn [map].
    + now rewrite <- app_assoc.
    + now rewrite app_nil_r.
Qed.

Lemma load_icons_rows_eq rows :
  load_icons_rows rows = map icon_of_row (List.filter accepted rows).
Proof. unfold load_icons_rows. now rewrite load_icons_loop. Qed.

Lemma build_icons_map_snoc icons item :
  build_icons_map w (icons ++ [item]) =
  <[icon_name item := urljoin w (base_url w) (icon_href item)]>
    (build_icons_map w icons).
Proof. unfold build_icons_map. now rewrite fold_left_app. Qed.

(** The last item of a name decides the entry of that name. *)
Lemma build_icons_map_last icons item later :
  Forall (fun j => icon_name j <> icon_name item) later ->
  build_icons_map w (icons ++ item :: later) !! icon_name item =
  Some (urljoin w (base_url w) (icon_href item)).
Proof.
  induction later as [|j later IH] using rev_ind; intros H.
  - rewrite build_icons_map_snoc. apply lookup_insert_eq.
  - apply Forall_app in H as [Hlater Hj].
    apply Forall_cons in Hj as [Hj _].
    rewrite app_comm_cons, app_assoc, build_icons_map_snoc.
    rewrite lookup_insert_ne by exact Hj. auto.
Qed.

Lemma build_icons_map_absent icons name :
  Forall (fun j => icon_name j <> name) icons ->
  build_icons_map w icons !! name = None.
Proof.
  induction icons as [|j icons IH] using rev_ind; intros H.
  - apply lookup_empty.
  - apply Forall_app in H as [Hicons Hj].
    apply Forall_cons in Hj as [Hj _].
    rewrite build_icons_map_snoc, lookup_insert_ne by exact Hj. auto.
Qed.

Lemma accepted_names rows name :
  Forall (fun tds => accepted tds = true ->
                     td_text (nth 2 tds td_missing) <> name) rows ->
  Forall (fun j => icon_name j <> name)
         (map icon_of_row (List.filter accepted rows)).
Proof.
  induction 1 as [|tds rows Htds _ IH]; cbn [List.filter map].
  - constructor.
  - destruct (accepted tds) eqn:E; cbn [map]; [|exact IH].
    constructor; [exact (Htds eq_refl)|exact IH].
Qed.

End IconIndex.

(** ** Writing the file *)

Section WriteFile.

Variable w : World.

Implicit Types (channels : list ProcessedChannel) (f t : pystr).

Lemma write_entries_ok lan channels f :
  forallb (fun ch => encodable (extinf ch) &&
                     encodable (stream_url w lan ch)) channels = true ->
  write_entries w lan channels f =
  (Ok tt, fold_left (write_entry w lan) channels f).
Proof.
  revert f. induction channels as [|ch chs IH]; intros f H;
    cbn [forallb write_entries fold_left] in *.
  - reflexivity.
  - apply andb_true_iff in H as [Hch Hchs].
    apply andb_true_iff in Hch as [He Hs].
    unfold f_write. rewrite He, Hs. now rewrite (IH _ Hchs).
Qed.

Lemma write_text_ok t channels lan :
  text_encodable w t channels lan = true ->
  write_text w t channels lan = (Ok tt, playlist_text w t channels lan).
Proof.
  unfold text_encodable, write_text, f_write, playlist_text.
  intros H. apply andb_true_iff in H as [Hh Hchs].
  rewrite Hh. cbn [app]. now apply write_entries_ok.
Qed.

(** Whatever happens, the file holds a beginning of the playlist. *)
Lemma write_entries_prefix lan channels f :
  exists rest,
    fold_left (write_entry w lan) channels f =
    snd (write_entries w lan channels f) ++ rest.
Proof.
  revert f. induction channels as [|ch chs IH]; intros f;
    cbn [write_entries fold_left].
  - exists []. now rewrite app_nil_r.
  - rewrite write_loop. unfold f_write, write_entry.
    destruct (encodable (extinf ch)); cbn [snd].
    + destruct (encodable (stream_url w lan ch)); cbn [snd].
      * rewrite <- write_loop. apply IH.
      * eexists. now rewrite <- !app_assoc.
    + eexists. now rewrite <- !app_assoc.
Qed.

Lemma write_text_prefix t channels lan :
  exists rest,
    playlist_text w t channels lan =
    snd (write_text w t channels lan) ++ rest.
Proof.
  unfold write_text, playlist_text, f_write.
  destruct (encodable (header t)); cbn [app].
  - apply write_entries_prefix.
  - now eexists.
Qed.

Lemma write_entries_raises lan channels f :
  forallb (fun ch => encodable (extinf ch) &&
                     encodable (stream_url w lan ch)) channels = false ->
  fst (write_entries w lan channels f) = Raise UnicodeEncodeError.
Proof.
  revert f. induction channels as [|ch chs IH]; intros f H;
    cbn [forallb write_entries] in *.
  - discriminate.
  - unfold f_write.
    destruct (encodable (extinf ch)); [|reflexivity].
    destruct (encodable (stream_url w lan ch)); [|reflexivity].
    apply IH. exact H.
Qed.

Lemma write_text_raises t channels lan :
  text_encodable w t channels lan = false ->
  fst (write_text w t channels lan) = Raise UnicodeEncodeError.
Proof.
  unfold text_encodable, write_text, f_write. intros H.
  destruct (encodable (header t)); [|reflexivity].
  cbn [app]. now apply write_entries_raises.
Qed.

Lemma write_m3u8_ok channels output_path lan st :
  can_mkdir w output_path = true ->
  can_open w output_path = true ->
  text_encodable w (now_rfc3339 w (clock_reads st)) channels lan = true ->
  write_m3u8 w channels output_path lan st =
  (Ok tt,
   {| files := <[file_of w output_path :=
                   playlist_text w (now_rfc3339 w (clock_reads st))
                                 channels lan]> (files st);
      clock_reads := S (clock_reads st) |}).
Proof.
  intros Hm Ho He. unfold write_m3u8. rewrite Hm, Ho.
  cbn [files clock_reads]. now rewrite (write_text_ok _ _ _ He).
Qed.

(** [write_m3u8] changes no file but the one its path names, and reads the
    clock at most once. *)
Lemma write_m3u8_frame channels output_path lan st :
  (forall other,
     other <> file_of w output_path ->
     files (snd (write_m3u8 w channels output_path lan st)) !! other =
     files st !! other) /\
  clock_reads st <= clock_reads (snd (write_m3u8 w channels output_path lan st))
    <= S (clock_reads st).
Proof.
  unfold write_m3u8.
  destruct (can_mkdir w output_path); [|cbn [snd]; split; [reflexivity|lia]].
  destruct (can_open w output_path);
    [|cbn [snd files clock_reads]; split; [reflexivity|lia]].
  destruct (write_text w _ channels lan) as [r text].
  cbn [snd files clock_reads]. split; [|lia].
  intros other Hne. now rewrite lookup_insert_ne by congruence.
Qed.

End WriteFile.

(** * The claims *)

(** ** C1: scenario 1 *)

(** C1, as stated, does not hold: with an icon index that has neither
    spelling of the name, the record produced for the row of scenario 1 is
    not named [CCTV-1]. *)
Lemma C1_name_keeps_no_hyphen :
  ~ (forall icons_map : gmap pystr pystr,
       icons_map !! py "CCTV-1" = None ->
       exists p, p ∈ process_channels [scenario1] icons_map /\
                 ch_name p = py "CCTV-1" /\ ch_tag p = py "央视" /\
                 ch_icon p = []).
Proof.
  intros H. destruct (H ∅ (lookup_empty _)) as (p & Hin & Hname & _).
  apply process_channels_origin in Hin as (ch & Hch & _ & ->).
  apply list_elem_of_singleton in Hch as ->.
  vm_compute in Hname. discriminate.
Qed.

(** C1, amended: the hyphen is a cleanup keyword, so the row of scenario 1
    becomes the record named [CCTV1], tagged [央视], with an empty icon when
    the icon index has no entry for [CCTV1]. *)
Theorem C1_scenario1 (icons_map : gmap pystr pystr) :
  icons_map !! py "CCTV1" = None ->
  process_channels [scenario1] icons_map =
  [ mkProcessed (py "1") (py "CCTV1") (py "239.1.1.1:5000") (py "央视") [] ].
Proof.
  intros Hicon. rewrite process_channels_eq.
  assert (List.filter survives [scenario1] = [scenario1]) as ->
    by (vm_compute; reflexivity).
  cbn [map]. unfold normalize.
  assert (cleanup (raw_name scenario1) = py "CCTV1") as ->
    by (vm_compute; reflexivity).
  unfold icon_get. rewrite Hicon.
  vm_compute. reflexivity.
Qed.

(** Scenario 1 with the empty icon index. *)
Lemma C1_scenario1_witness :
  process_channels [scenario1] ∅ =
  [ mkProcessed (py "1") (py "CCTV1") (py "239.1.1.1:5000") (py "央视") [] ].
Proof. apply (C1_scenario1 ∅). reflexivity. Defined.

(** ** C2: idempotence of the cleanup *)

(** C2, as stated, does not hold: removing the hyphen of [高-清] forms the
    keyword [高清], which a second cleanup removes. *)
Lemma C2_cleanup_twice_differs :
  cleanup (cleanup (py "高-清")) <> cleanup (py "高-清").
Proof. vm_compute. discriminate. Qed.

(** C2, amended: cleaning a cleaned name again changes nothing exactly when
    the cleaned name contains no cleanup keyword. *)
Theorem C2_cleanup_idempotent_iff (name : pystr) :
  cleanup (cleanup name) = cleanup name <->
  contains_any (cleanup name) cleanup_keywords = false.
Proof. apply cleanup_with_fixed, cleanup_keywords_nonempty. Qed.

(** The cleaned name of scenario 1, [CCTV1], has no keyword left. *)
Lemma C2_cleanup_idempotent_witness :
  cleanup (cleanup (py "CCTV-1 高清")) = cleanup (py "CCTV-1 高清").
Proof.
  apply (proj2 (C2_cleanup_idempotent_iff (py "CCTV-1 高清"))).
  vm_compute. reflexivity.
Defined.

(** ** C3: invariant of processed channels *)

(** C3, as stated, does not hold: the row named [高-清] passes the filter and
    its processed name is the cleanup keyword [高清]. *)
Lemma C3_name_may_keep_keyword :
  ~ (forall (channels : list RawChannel) (icons_map : gmap pystr pystr) p,
       p ∈ process_channels channels icons_map ->
       contains_any (ch_name p) cleanup_keywords = false /\
       exists ch, ch ∈ channels /\ ch_id p = raw_id ch /\
                  contains_any (raw_name ch) filter_keywords = false).
Proof.
  intros H.
  destruct (H [mkRaw (py "7") (py "高-清") (py "239.1.1.7:5000")] ∅
              (mkProcessed (py "7") (py "高清") (py "239.1.1.7:5000")
                           (py "其他") [])) as [Hname _].
  - vm_compute. constructor.
  - vm_compute in Hname. discriminate.
Qed.

(** C3, amended: every processed channel comes from a raw row whose raw
    name contains no filter keyword; its name is that raw name after one
    removal pass per cleanup keyword and the trim, and contains no hyphen. *)
Theorem C3_processed_invariant
    (channels : list RawChannel) (icons_map : gmap pystr pystr)
    (p : ProcessedChannel) :
  p ∈ process_channels channels icons_map ->
  exists ch,
    ch ∈ channels /\
    contains_any (raw_name ch) filter_keywords = false /\
    ch_id p = raw_id ch /\ ch_address p = raw_address ch /\
    ch_name p = cleanup (raw_name ch) /\
    contains (py "-") (ch_name p) = false.
Proof.
  intros Hin. apply process_channels_origin in Hin as (ch & Hch & Hs & ->).
  exists ch. unfold survives in Hs. apply negb_true_iff in Hs.
  repeat split; auto. apply cleanup_no_hyphen.
Qed.

(** The invariant at the record produced for the row named [高-清]. *)
Lemma C3_processed_invariant_witness :
  exists ch,
    ch ∈ [mkRaw (py "7") (py "高-清") (py "239.1.1.7:5000")] /\
    contains_any (raw_name ch) filter_keywords = false /\
    py "7" = raw_id ch /\ py "239.1.1.7:5000" = raw_address ch /\
    py "高清" = cleanup (raw_name ch) /\
    contains (py "-") (py "高清") = false.
Proof.
  apply (C3_processed_invariant
           [mkRaw (py "7") (py "高-清") (py "239.1.1.7:5000")] ∅
           (mkProcessed (py "7") (py "高清") (py "239.1.1.7:5000")
                        (py "其他") [])).
  vm_compute. constructor.
Defined.

(** ** C4: categorization *)

(** C4: [categorize] is a function of the name; the rules are scanned in
    the declared order [央视], [卫视], [少儿], [电影], [电视剧], [四川], the
    first rule with a trigger occurring in the name gives the tag and [其他]
    is the tag when no rule has one; every processed channel carries the tag
    of its cleaned name; [四川卫视] is tagged [卫视] although the [四川] rule
    matches it too. *)
Theorem C4_categorize_first_match :
  map fst category_rules =
    [py "央视"; py "卫视"; py "少儿"; py "电影"; py "电视剧"; py "四川"] /\
  (forall name,
     (exists pre cat kws post,
        category_rules = pre ++ (cat, kws) :: post /\
        Forall (fun r => contains_any name (snd r) = false) pre /\
        contains_any name kws = true /\
        categorize name = cat) \/
     (Forall (fun r => contains_any name (snd r) = false) category_rules /\
      categorize name = py "其他")) /\
  (forall channels icons_map,
     Forall (fun p => ch_tag p = categorize (ch_name p))
            (process_channels channels icons_map)) /\
  (cleanup (py "四川卫视-超高清") = py "四川卫视" /\
   categorize (py "四川卫视") = py "卫视" /\
   categorize (py "四川卫视") <> py "四川" /\
   Exists (fun r => fst r = py "四川" /\
                    contains_any (py "四川卫视") (snd r) = true)
          category_rules).
Proof.
  split; [reflexivity|]. split; [|split].
  - intros name. apply categorize_rules_first.
  - intros channels icons_map. rewrite process_channels_eq.
    apply Forall_forall. intros p Hp.
    apply list_elem_of_In, in_map_iff in Hp as (ch & <- & _).
    reflexivity.
  - split; [vm_compute; reflexivity|].
    split; [vm_compute; reflexivity|].
    split; [vm_compute; discriminate|].
    do 5 apply Exists_cons_tl. apply Exists_cons_hd.
    split; vm_compute; reflexivity.
Qed.

(** ** C5: the output is an order-preserving selection of the input *)

(** C5: the processed channels are the normalized surviving rows in input
    order, so their ids are a sublist, hence a subset, of the input ids; a
    row whose raw name has a filter keyword contributes nothing, as the row
    named [测试频道]. *)
Theorem C5_order_preserving_selection
    (channels : list RawChannel) (icons_map : gmap pystr pystr) :
  process_channels channels icons_map =
    map (normalize icons_map) (List.filter survives channels) /\
  map ch_id (process_channels channels icons_map) `sublist_of`
    map raw_id channels /\
  map ch_id (process_channels channels icons_map) ⊆ map raw_id channels /\
  (forall pre ch post,
     process_channels (pre ++ ch :: post) icons_map =
     process_channels pre icons_map ++
     (if contains_any (raw_name ch) filter_keywords then []
      else [normalize icons_map ch]) ++
     process_channels post icons_map) /\
  contains_any (raw_name scenario2) filter_keywords = true /\
  process_channels [scenario2] icons_map = [].
Proof.
  split; [apply process_channels_eq|].
  split; [apply process_channels_ids|].
  split.
  { intros x Hx. eapply elem_of_sublist; [exact Hx|].
    apply process_channels_ids. }
  split.
  { intros pre ch post.
    change (pre ++ ch :: post) with (pre ++ [ch] ++ post).
    rewrite !process_channels_app, (process_channels_eq _ [ch]).
    cbn [List.filter]. unfold survives.
    now destruct (contains_any (raw_name ch) filter_keywords). }
  split; [vm_compute; reflexivity|].
  rewrite process_channels_eq.
  assert (List.filter survives [scenario2] = []) as ->
    by (vm_compute; reflexivity).
  reflexivity.
Qed.

(** ** C10: the filter looks at the raw name only *)

(** C10: the raw name [测-试] contains no filter keyword, its cleaned name is
    the filter keyword [测试], and the row is kept, under that name. *)
Theorem C10_filter_before_cleanup :
  contains_any (py "测-试") filter_keywords = false /\
  cleanup (py "测-试") = py "测试" /\
  contains_any (py "测试") filter_keywords = true /\
  In (py "测试") filter_keywords /\
  forall (id address : pystr) (icons_map : gmap pystr pystr),
    process_channels [mkRaw id (py "测-试") address] icons_map =
    [ mkProcessed id (py "测试") address (py "其他")
                  (icon_get icons_map (py "测试")) ].
Proof.
  assert (Hc : cleanup (py "测-试") = py "测试") by (vm_compute; reflexivity).
  split; [vm_compute; reflexivity|].
  split; [exact Hc|].
  split; [vm_compute; reflexivity|].
  split; [vm_compute; tauto|].
  intros id address icons_map. rewrite process_channels_eq.
  assert (List.filter survives [mkRaw id (py "测-试") address] =
          [mkRaw id (py "测-试") address]) as -> by reflexivity.
  cbn [map]. unfold normalize. cbn [raw_id raw_name raw_address].
  rewrite Hc. f_equal.
Qed.

(** ** C6: the number of lines of a playlist *)




(** ** C7: the stream-address line *)



(** ** C8: a failed fetch of the channel page *)




(** ** C9: the icon index *)



(** * Further properties of the program *)

(** ** Scraping the channel table *)

Section Extract.

Implicit Types (channels : list RawChannel) (tds : list Td).

Lemma extract_channels_step_eq channels tds :
  extract_channels_step channels tds =
  channels ++ (if channel_row tds then [raw_of_row tds] else []).
Proof.
  unfold extract_channels_step, channel_row, raw_of_row.
  rewrite Nat.leb_antisym.
  destruct tds as [|td tds]; [now rewrite app_nil_r|].
  cbn [orb nth].
  destruct (bool_decide (td_text td = py "序号")); cbn [negb andb].
  - now rewrite app_nil_r.
  - destruct (length (td :: tds) <? 3); cbn [negb].
    + now rewrite app_nil_r.
    + reflexivity.
Qed.

Lemma extract_channels_loop rows channels :
  fold_left extract_channels_step rows channels =
  channels ++ map raw_of_row (List.filter channel_row rows).
Proof.
  revert channels. induction rows as [|tds rows IH]; intros channels;
    cbn [fold_left List.filter].
  - now rewrite app_nil_r.
  - rewrite IH, extract_channels_step_eq. destruct (channel_row tds); cbn [map].
    + now rewrite <- app_assoc.
    + now rewrite app_nil_r.
Qed.

Lemma channel_row_true tds :
  channel_row tds = true <->
  3 <= length tds /\ td_text (nth 0 tds td_missing) <> py "序号".
Proof.
  unfold channel_row.
  rewrite andb_true_iff, negb_true_iff, bool_decide_eq_false, Nat.leb_le.
  tauto.
Qed.

End Extract.

(** [extract_channels] on a page with a body: the channels are the rows
    with at least three cells whose first cell is not the header marker
    [序号], in table order, each giving its first three cell texts as id,
    name and address; no channel has the id [序号] and there are at most as
    many channels as rows. *)
Theorem extract_channels_rows (w : World) (content : bytes) :
  fetch w (base_url w ++ py "/sctvmulticast.html") = Some content ->
  content <> [] ->
  extract_channels w =
    map raw_of_row (List.filter channel_row (soup_rows w content)) /\
  (forall tds,
     channel_row tds = true <->
     3 <= length tds /\ td_text (nth 0 tds td_missing) <> py "序号") /\
  Forall (fun ch => raw_id ch <> py "序号") (extract_channels w) /\
  length (extract_channels w) <= length (soup_rows w content).
Proof.
  intros Hfetch Hne.
  assert (E : extract_channels w =
              map raw_of_row (List.filter channel_row (soup_rows w content))).
  { unfold extract_channels. rewrite Hfetch.
    destruct content as [|b content]; [congruence|].
    cbn [no_content default from_option id]. now rewrite extract_channels_loop. }
  split; [exact E|]. split; [exact channel_row_true|]. split.
  - rewrite E. apply Forall_forall. intros ch Hch.
    apply list_elem_of_In, in_map_iff in Hch as (tds & <- & Htds).
    apply filter_In in Htds as [_ Hrow].
    apply channel_row_true in Hrow as [_ Hhead]. exact Hhead.
  - rewrite E, length_map. apply sublist_length, filter_sublist.
Qed.

(** The channel table of the sample site gives three channels. *)
Lemma extract_channels_rows_witness :
  extract_channels online_world =
  map raw_of_row (List.filter channel_row (soup_rows online_world channel_page)).
Proof.
  apply (extract_channels_rows online_world channel_page).
  - vm_compute. reflexivity.
  - discriminate.
Defined.

(** ** Scraping the icon table and building the index *)

(** Every icon record of [load_icons] comes from a table row with at least
    four cells whose first cell links to the recorded target, which is never
    the placeholder [#]; its name and id are the texts of the third and
    fourth cell; there are at most as many records as rows. *)
Theorem load_icons_rows_sound (rows : list (list Td)) :
  Forall (fun item =>
            icon_href item <> py "#" /\
            exists tds,
              tds ∈ rows /\ 4 <= length tds /\
              td_href (nth 0 tds td_missing) = Some (icon_href item) /\
              icon_name item = td_text (nth 2 tds td_missing) /\
              icon_id item = td_text (nth 3 tds td_missing))
         (load_icons_rows rows) /\
  length (load_icons_rows rows) <= length rows.
Proof.
  rewrite load_icons_rows_eq. split.
  - apply Forall_forall. intros item Hitem.
    apply list_elem_of_In, in_map_iff in Hitem as (tds & <- & Htds).
    apply filter_In in Htds as [Hin Hacc].
    unfold accepted in Hacc. apply andb_true_iff in Hacc as [Hlen Hhref].
    apply Nat.leb_le in Hlen. unfold icon_of_row. cbn [icon_href icon_name icon_id].
    destruct (td_href (nth 0 tds td_missing)) as [href|] eqn:E;
      [|discriminate].
    apply negb_true_iff, bool_decide_eq_false in Hhref.
    split; [exact Hhref|]. exists tds.
    rewrite list_elem_of_In. repeat split; auto.
  - rewrite length_map. apply sublist_length, filter_sublist.
Qed.

Lemma filter_snoc {A} (f : A -> bool) (l : list A) (x : A) :
  List.filter f (l ++ [x]) = List.filter f l ++ (if f x then [x] else []).
Proof. now rewrite List.filter_app. Qed.


(** When the icon page cannot be had (the request failed or the body is
    empty), [load_icons] returns no record, the index is empty, and the
    channels are processed all the same, each with the empty icon. *)
Theorem icons_unavailable (w : World) (channels : list RawChannel) :
  no_content (fetch w (base_url w)) = true ->
  load_icons w = [] /\
  build_icons_map w (load_icons w) = ∅ /\
  process_channels channels (build_icons_map w (load_icons w)) =
    map (normalize ∅) (List.filter survives channels) /\
  Forall (fun p => ch_icon p = [])
         (process_channels channels (build_icons_map w (load_icons w))).
Proof.
  intros Hno.
  assert (Hl : load_icons w = []) by (unfold load_icons; now rewrite Hno).
  rewrite Hl. change (build_icons_map w []) with (∅ : gmap pystr pystr).
  split; [reflexivity|]. split; [reflexivity|].
  rewrite process_channels_eq. split; [reflexivity|].
  apply Forall_forall. intros p Hp.
  apply list_elem_of_In, in_map_iff in Hp as (ch & <- & _).
  unfold normalize, icon_get. cbn [ch_icon]. now rewrite lookup_empty.
Qed.

(** Without network, scenario 1 is processed with the empty icon. *)
Lemma icons_unavailable_witness :
  Forall (fun p => ch_icon p = [])
    (process_channels [scenario1]
       (build_icons_map offline_world (load_icons offline_world))).
Proof.
  apply (icons_unavailable offline_world [scenario1]). reflexivity.
Defined.

(** An index entry whose name contains a hyphen is never used: the lookup
    key is a cleaned name, and a cleaned name has no hyphen. *)
Theorem hyphen_icon_never_used
    (icons_map : gmap pystr pystr) (name url : pystr)
    (channels : list RawChannel) :
  contains (py "-") name = true ->
  process_channels channels (<[name := url]> icons_map) =
  process_channels channels icons_map.
Proof.
  intros Hname. rewrite !process_channels_eq.
  apply map_ext. intros ch. unfold normalize, icon_get.
  rewrite lookup_insert_ne; [reflexivity|].
  intros ->. rewrite cleanup_no_hyphen in Hname. discriminate.
Qed.

(** The icon registered for [CCTV-1] does not reach scenario 1. *)
Lemma hyphen_icon_never_used_witness :
  process_channels [scenario1]
    (<[py "CCTV-1" := py "http://epg.51zmt.top:8000/logo/1.png"]> ∅) =
  process_channels [scenario1] ∅.
Proof.
  apply (hyphen_icon_never_used ∅ (py "CCTV-1")
           (py "http://epg.51zmt.top:8000/logo/1.png") [scenario1]).
  vm_compute. reflexivity.
Defined.

(** ** The keyword tests *)

(** [contains_any] holds exactly when one of the keywords occurs in the text
    as a contiguous substring; in particular it fails for an empty keyword
    list. *)
Theorem contains_any_substring (text : pystr) (keywords : list pystr) :
  contains_any text keywords = true <->
  exists kw pre post, kw ∈ keywords /\ text = pre ++ kw ++ post.
Proof.
  unfold contains_any. rewrite existsb_exists. split.
  - intros (kw & Hin & Hc). apply contains_true in Hc as (pre & post & ->).
    exists kw, pre, post. now rewrite list_elem_of_In.
  - intros (kw & pre & post & Hin & ->). exists kw.
    rewrite <- list_elem_of_In. split; [exact Hin|].
    apply contains_true. now exists pre, post.
Qed.

Lemma contains_trans (a b c : pystr) :
  contains a b = true -> contains b c = true -> contains a c = true.
Proof.
  rewrite !contains_true.
  intros (p1 & q1 & ->) (p2 & q2 & ->).
  exists (p2 ++ p1), (q1 ++ q2). now rewrite <- !app_assoc.
Qed.

(** ** The removal scan *)

Lemma replace_scan_skip old new (skipped rest : pystr) :
  replace_scan old new (length skipped) (skipped ++ rest) =
  replace_scan old new 0 rest.
Proof.
  induction skipped as [|c skipped IH]; [reflexivity|].
  cbn [length app replace_scan]. exact IH.
Qed.

(** The scan of [replace] is leftmost and non-overlapping: at an occurrence
    of a non-empty [old] it emits [new] and goes on behind the occurrence;
    elsewhere it keeps the character and goes on with the next one. *)
Theorem replace_leftmost (old new : pystr) (c : N) (s : pystr) :
  old <> [] ->
  replace old new (old ++ s) = new ++ replace old new s /\
  (startswith old (c :: s) = false ->
   replace old new (c :: s) = c :: replace old new s).
Proof.
  destruct old as [|a old]; [congruence|]. intros _.
  cbn [replace]. split.
  - rewrite <- app_comm_cons. cbn [replace_scan].
    rewrite app_comm_cons, startswith_app. f_equal.
    replace (length (a :: old) - 1) with (length old) by (cbn [length]; lia).
    apply replace_scan_skip.
  - intros H. cbn [replace_scan]. now rewrite H.
Qed.

(** The keyword [高清] at the start of a name. *)
Lemma replace_leftmost_witness :
  replace (py "高清") [] (py "高清" ++ py "x") = [] ++ replace (py "高清") [] (py "x").
Proof.
  apply (replace_leftmost (py "高清") [] 0%N (py "x")).
  vm_compute. discriminate.
Defined.

(** ** More on the cleanup step *)

(** The cleanup only deletes characters: a cleaned name is a subsequence of
    the raw name, is not longer, and neither starts nor ends with
    whitespace. *)
Theorem cleanup_shape (name : pystr) :
  cleanup name `sublist_of` name /\
  length (cleanup name) <= length name /\
  trimmed (cleanup name).
Proof.
  split; [apply cleanup_with_sublist|].
  split; [apply sublist_length, cleanup_with_sublist|].
  apply strip_trimmed.
Qed.

(** The cleanup leaves a name as it is exactly when the name contains no
    cleanup keyword and has no whitespace at either end. *)
Theorem cleanup_unchanged_iff (name : pystr) :
  cleanup name = name <->
  contains_any name cleanup_keywords = false /\ trimmed name.
Proof.
  split.
  - intros Heq. split.
    + destruct (contains_any name cleanup_keywords) eqn:E; [|reflexivity].
      pose proof (remove_keywords_shrinks _ _ cleanup_keywords_nonempty E) as Hlt.
      pose proof (strip_length (remove_keywords cleanup_keywords name)) as Hle.
      apply (f_equal (@length N)) in Heq.
      unfold cleanup, cleanup_with, remove_keywords in *. lia.
    + rewrite <- Heq. apply strip_trimmed.
  - intros [Habs Htrim]. unfold cleanup, cleanup_with.
    fold (remove_keywords cleanup_keywords name).
    rewrite (remove_keywords_absent _ _ Habs). now apply strip_fixed.
Qed.

(** ** More on the normalizer *)

(** Every input row is either dropped by the filter or gives exactly one
    processed channel. *)
Theorem process_channels_count
    (channels : list RawChannel) (icons_map : gmap pystr pystr) :
  length (process_channels channels icons_map) +
  length (List.filter
            (fun ch => contains_any (raw_name ch) filter_keywords) channels) =
  length channels /\
  length (process_channels channels icons_map) <= length channels.
Proof.
  assert (E : length (process_channels channels icons_map) +
              length (List.filter
                (fun ch => contains_any (raw_name ch) filter_keywords) channels)
              = length channels).
  { rewrite process_channels_eq, length_map.
    induction channels as [|ch chs IH]; [reflexivity|].
    cbn [List.filter]. unfold survives at 1.
    destruct (contains_any (raw_name ch) filter_keywords);
      cbn [negb length]; lia. }
  split; [exact E|lia].
Qed.

(** The icon index decides the icon field only: which rows survive, and the
    id, name, address and tag of each processed channel, are the same for
    every index. *)
Theorem icons_only_set_icon
    (channels : list RawChannel) (m1 m2 : gmap pystr pystr) :
  map (fun p => (ch_id p, ch_name p, ch_address p, ch_tag p))
      (process_channels channels m1) =
  map (fun p => (ch_id p, ch_name p, ch_address p, ch_tag p))
      (process_channels channels m2) /\
  Forall (fun p => ch_icon p = icon_get m1 (ch_name p))
         (process_channels channels m1).
Proof.
  rewrite !process_channels_eq, !map_map. split; [reflexivity|].
  apply Forall_forall. intros p Hp.
  apply list_elem_of_In, in_map_iff in Hp as (ch & <- & _). reflexivity.
Qed.

(** The filter keyword [爱] is a single character, so it cannot be formed by
    the cleanup: no processed name contains it, and the eight category
    triggers that contain it never match a processed name. *)
Theorem processed_name_without_ai
    (channels : list RawChannel) (icons_map : gmap pystr pystr) :
  Forall (fun p =>
            contains (py "爱") (ch_name p) = false /\
            contains_any (ch_name p)
              [py "爱浪漫"; py "爱喜剧"; py "爱科幻"; py "爱院线";
               py "爱历史"; py "爱悬疑"; py "爱谍战"; py "爱旅行"] = false)
         (process_channels channels icons_map) /\
  List.filter (fun kw => contains (py "爱") kw) all_triggers =
    [py "爱浪漫"; py "爱喜剧"; py "爱科幻"; py "爱院线";
     py "爱历史"; py "爱悬疑"; py "爱谍战"; py "爱旅行"].
Proof.
  split; [|vm_compute; reflexivity].
  apply Forall_forall. intros p Hp.
  apply process_channels_origin in Hp as (ch & _ & Hs & ->).
  cbn [ch_name normalize].
  assert (Hno : contains (py "爱") (cleanup (raw_name ch)) = false).
  { unfold survives in Hs. apply negb_true_iff in Hs.
    assert (Hraw : contains (py "爱") (raw_name ch) = false).
    { unfold contains_any, filter_keywords in Hs. cbn [existsb] in Hs.
      repeat (apply orb_false_iff in Hs as [? Hs]). assumption. }
    destruct (contains (py "爱") (cleanup (raw_name ch))) eqn:E; [|reflexivity].
    change (py "爱") with [29233%N] in *.
    apply contains_char in E.
    pose proof (elem_of_sublist _ _ _ E (cleanup_with_sublist _ _)) as Hin.
    apply contains_char in Hin. congruence. }
  split; [exact Hno|].
  destruct (contains_any _ _) eqn:E; [|reflexivity].
  unfold contains_any in E. apply existsb_exists in E as (kw & Hkw & Hc).
  assert (Hai : contains (py "爱") kw = true).
  { cbn [In] in Hkw.
    repeat (destruct Hkw as [<-|Hkw]; [vm_compute; reflexivity|]).
    destruct Hkw. }
  rewrite (contains_trans _ _ _ Hai Hc) in Hno. discriminate.
Qed.

(** ** More on categorization *)

Lemma categorize_rules_range rules name :
  In (categorize_rules rules name) (map fst rules ++ [py "其他"]).
Proof.
  induction rules as [|[cat kws] rules IH]; cbn [categorize_rules map app fst].
  - now left.
  - destruct (contains_any name kws); [now left|now right].
Qed.

Lemma categorize_rules_default rules name :
  Forall (fun r => fst r <> py "其他") rules ->
  categorize_rules rules name = py "其他" <->
  contains_any name (flat_map snd rules) = false.
Proof.
  induction 1 as [|[cat kws] rules Hcat _ IH];
    cbn [categorize_rules flat_map snd fst] in *.
  - split; reflexivity.
  - unfold contains_any in *. rewrite existsb_app.
    destruct (existsb (fun kw => contains kw name) kws); cbn [orb].
    + split; [intros E; contradiction|discriminate].
    + exact IH.
Qed.

Lemma categorize_rules_head cat kws rest name :
  ~ In cat (map fst rest ++ [py "其他"]) ->
  categorize_rules ((cat, kws) :: rest) name = cat <->
  contains_any name kws = true.
Proof.
  intros Hfresh. cbn [categorize_rules].
  destruct (contains_any name kws).
  - split; reflexivity.
  - split; [|discriminate]. intros E. exfalso. apply Hfresh.
    rewrite <- E. apply categorize_rules_range.
Qed.

(** The tag is one of the six category labels or [其他]; it is [其他]
    exactly when no trigger of any rule occurs in the name, and [央视]
    exactly when [CCTV], [CETV] or [CGTN] occurs in it, whatever else the
    name contains. *)
Theorem categorize_tags (name : pystr) :
  In (categorize name)
     [py "央视"; py "卫视"; py "少儿"; py "电影"; py "电视剧"; py "四川";
      py "其他"] /\
  (categorize name = py "其他" <-> contains_any name all_triggers = false) /\
  (categorize name = py "央视" <->
   contains_any name [py "CCTV"; py "CETV"; py "CGTN"] = true).
Proof.
  split; [apply (categorize_rules_range category_rules)|]. split.
  - apply categorize_rules_default.
    repeat constructor; vm_compute; discriminate.
  - unfold categorize.
    change category_rules
      with ((py "央视", [py "CCTV"; py "CETV"; py "CGTN"]) :: tl category_rules).
    apply categorize_rules_head.
    vm_compute. intros Hin.
    repeat (destruct Hin as [Hin|Hin]; [discriminate|]).
    destruct Hin.
Qed.

(** ** More on the playlist writer *)



